(** * Shop Inventory (src/main.cpp): product catalog, inventory store, shell

    A shallow embedding of [main.cpp].

    - [Product] is the scoped enumeration with underlying type [int]; since
      [scanf("%d", &item.id)] can store any integer into it, a [Product] is an
      integer ([Z]) and the enumerators are named constants.
    - [Inventory] holds a [std::vector<Item>], modelled as a list.  An
      [ItemPtr] (a vector iterator) is the offset from [items.begin()], so
      [items.end()] is the length of the list; the value-initialised iterator
      [ItemPtr {}] returned by a failed [search] is [None].
    - [InventoryUI] is a transition system: a control state for every place
      where the program waits for console input, and one transition for every
      value read there. *)

From Stdlib Require Import ZArith Ascii String.
From stdpp Require Import base list strings.

Local Open Scope string_scope.
Local Open Scope Z_scope.

(** ** Product catalog *)

Definition MAX_ITEMS : nat := 30.

(** [enum class Product], lines 11-25. *)
Definition Product : Type := Z.

Module Product.
Definition Invalid : Product := -1.
Definition Dresses : Product := 0.
Definition CropTops : Product := 1.
Definition SweatshirtsHoodies : Product := 2.
Definition Blouses : Product := 3.
Definition Skirts : Product := 4.
Definition Shorts : Product := 5.
Definition Jeans : Product := 6.
Definition MatchingSets : Product := 7.
Definition Swimwear : Product := 8.
Definition Accessories : Product := 9.
Definition Count : Product := 10.

(** The ten categories declared between the two sentinels. *)
Definition declared : list Product :=
  [Dresses; CropTops; SweatshirtsHoodies; Blouses; Skirts; Shorts; Jeans;
   MatchingSets; Swimwear; Accessories].
End Product.

(** [static_cast<int>(prod)] used as an array index. *)
Definition index_of (prod : Product) : nat := Z.to_nat prod.

(** An array of [n] empty string views in which the designated elements are
    then set, as the initializer of [PRODUCT_NAMES] does. *)
Definition designated (n : nat) (inits : list (Product * string)) : list string :=
  foldl (fun arr init => <[index_of init.1 := init.2]> arr)
        (replicate n EmptyString) inits.

(** [PRODUCT_NAMES], lines 28-40. *)
Definition PRODUCT_NAMES : list string :=
  designated (index_of Product.Count)
    [ (Product.Dresses, "Dresses");
      (Product.CropTops, "Crop Tops");
      (Product.SweatshirtsHoodies, "Sweatshirts & Hoodies");
      (Product.Blouses, "Blouses");
      (Product.Skirts, "Skirts");
      (Product.Shorts, "Shorts");
      (Product.Jeans, "Jeans");
      (Product.MatchingSets, "MatchingSets");
      (Product.Swimwear, "Swimwear");
      (Product.Accessories, "Accessories") ].

(** [is_valid_product], line 43. *)
Definition is_valid_product (prod : Product) : bool :=
  (prod >? Product.Invalid) && (prod <? Product.Count).

(** [get_product_name], lines 46-51. *)
Definition get_product_name (prod : Product) : string :=
  if negb (is_valid_product prod) then EmptyString
  else default EmptyString (PRODUCT_NAMES !! index_of prod).

(** ** Console

    What the program prints is the sequence of its [printf] calls, each kept
    as the format string written in the source (escape sequences are not
    expanded) with the arguments passed to it; [std::cout << text] is a
    [Printf] without arguments.  The widths and the rounding to two decimals
    that [printf] applies are not expanded. *)

(** [float]: an IEEE-754 binary32 value, carried by its bit pattern.  The
    program only stores prices and hands them to [printf]. *)
Definition float : Type := Z.

Inductive Arg : Type :=
| AChar (c : ascii)
| AInt (n : Z)
| AStr (s : string)
| AFloat (x : float).

Inductive Output : Type :=
| Printf (fmt : string) (args : list Arg).

(** [list_products], lines 54-62; the lambda's counter [i] is the position
    in the array. *)
Definition list_products : list Output :=
  Printf "Product list: \n" []
  :: imap (fun i name => Printf "(%d) %s\n" [AInt (Z.of_nat i); AStr name])
          PRODUCT_NAMES
  ++ [Printf "---------------\n" []].

(** ** Inventory store *)

(** [struct Item], lines 65-77. *)
Record Item : Type := mkItem {
  id : Product;
  name : string;
  price : float;
  nstock : Z
}.

(** [Inventory::ItemPtr]: the offset of a vector iterator from
    [items.begin()]. *)
Definition ItemPtr : Type := nat.

(** [struct Inventory], lines 80-116. *)
Record Inventory : Type := mkInventory {
  items : list Item
}.

Module Inventory.

Definition SearchPredicate : Type := Item -> bool.

(** The constructor, line 88: [reserve] leaves the sequence empty. *)
Definition new : Inventory := mkInventory [].

(** [add], line 91. *)
Definition add (self : Inventory) (item : Item) : Inventory :=
  mkInventory (items self ++ [item]).

(** [std::vector::erase] at one position: the elements behind it move one
    place forward.  Erasing at [end()], or past it, is undefined. *)
Fixpoint erase (v : list Item) (pos : nat) : option (list Item) :=
  match v, pos with
  | [], _ => None
  | _ :: rest, O => Some rest
  | x :: rest, S pos' => cons x <$> erase rest pos'
  end.

(** [remove], line 94. *)
Definition remove (self : Inventory) (pitem : ItemPtr) : option Inventory :=
  mkInventory <$> erase (items self) pitem.

(** [std::find_if] over the whole vector: the position of the first
    element for which [pred] holds, [end()] when there is none. *)
Fixpoint find_if (v : list Item) (pred : SearchPredicate) : nat :=
  match v with
  | [] => O
  | x :: rest => if pred x then O else S (find_if rest pred)
  end.

(** [search], lines 99-105. *)
Definition search (self : Inventory) (pred : SearchPredicate) : option ItemPtr :=
  let pitem := find_if (items self) pred in
  if negb (pitem =? length (items self))%nat then Some pitem
  else None.

(** The row printed for one item, line 112. *)
Definition row (item : Item) : Output :=
  Printf "%32s%64s%16.2f%8d\n"
    [AStr (get_product_name (id item)); AStr (name item);
     AFloat (price item); AInt (nstock item)].

(** [list], lines 108-115. *)
Definition list (self : Inventory) : list Output :=
  Printf "%32s%64s%16s%8s\n"
    [AStr "Product"; AStr "Model Code"; AStr "Price (GBP)"; AStr "Qty."]
  :: map row (items self)
  ++ [Printf "---------------\n" []].

End Inventory.

(** ** Interactive shell *)

(** What one console read delivers: a character ([scanf(" %c")],
    [std::cin >> char]), an integer ([scanf("%d")], [std::cin >> int]), a
    line ([std::getline] after [std::ws]) or a float ([std::cin >> float]).
    Input that does not parse as the value being read, and the end of the
    input, are outside the model. *)
Inductive Input : Type :=
| Char (c : ascii)
| Int (n : Z)
| Line (s : string)
| Float (x : float).

Module InventoryUI.

(** [enum class Option], lines 120-130: the enumerators are the codes of
    the command characters. *)
Module Option.
Definition char_literal (c : ascii) : Z := Z.of_N (N_of_ascii c).

Definition Invalid : Z := -1.
Definition AddItem : Z := char_literal "a".
Definition RemoveItem : Z := char_literal "r".
Definition EditItem : Z := char_literal "e".
Definition SearchItem : Z := char_literal "s".
Definition ListProducts : Z := char_literal "p".
Definition ListItems : Z := char_literal "l".
Definition Quit : Z := char_literal "q".
End Option.

(** [static_cast<char>(option)]. *)
Definition static_cast_char (v : Z) : ascii := ascii_of_N (Z.to_N (v mod 256)).

(** The call of [handle_add_option] that is being served: the one of [run]
    (line 256) or the one of the edit branch of [handle_search_option]
    (line 235), which holds the item found. *)
Inductive Caller : Type :=
| AddCommand
| EditCommand (pitem : ItemPtr).

(** The reads of [handle_add_option], with the fields of [item] filled in
    so far. *)
Inductive AddPoint : Type :=
| ReadCategory                                                  (* line 162 *)
| ReadModel (id : Product)                                      (* line 169 *)
| ReadPrice (id : Product) (name : string)                      (* line 172 *)
| ReadQuantity (id : Product) (name : string) (price : float).  (* line 175 *)

(** The reads of [handle_search_option] before an item is found. *)
Inductive SearchPoint : Type :=
| ReadMode       (* line 188 *)
| ReadName       (* line 197 *)
| ReadProduct.   (* line 206 *)

(** Where the program waits for input. *)
Inductive Control : Type :=
| MainMenu                                  (* [run], line 253 *)
| AddFlow (ret : Caller) (at_ : AddPoint)   (* [handle_add_option] *)
| SearchFlow (at_ : SearchPoint)            (* [handle_search_option] *)
| FoundItemMenu (pitem : ItemPtr)           (* line 224 *)
| Exit.                                     (* [run] has returned *)

(** The [InventoryUI] object and the place the program is at. *)
Record State : Type := mkState {
  inventory : Inventory;
  control : Control
}.

Definition Step : Type := option (State * list Output).

Definition invalid_option : Output :=
  Printf "Invalid option selected. Please try again.\n" [].

(** [list_options], lines 136-143. *)
Definition list_options : list Output :=
  [ Printf "(%c) Add Item\n" [AChar (static_cast_char Option.AddItem)];
    Printf "(%c) Search Item\n" [AChar (static_cast_char Option.SearchItem)];
    Printf "(%c) List Product Categories\n" [AChar (static_cast_char Option.ListProducts)];
    Printf "(%c) List Items in Stock\n" [AChar (static_cast_char Option.ListItems)];
    Printf "(%c) Quit\n" [AChar (static_cast_char Option.Quit)] ].

(** [get_user_action] up to its read, line 148. *)
Definition get_user_action : list Output :=
  [ Printf "Select operation: " [] ].

(** What is printed on the way to each read. *)
Definition to_main_menu : list Output :=        (* lines 252-253 *)
  list_options ++ get_user_action.

Definition to_add_flow : list Output :=         (* lines 158-160 *)
  list_products ++ [ Printf "Select product category to add: " [] ].

Definition to_found_item_menu : list Output :=  (* lines 221-224 *)
  [ Printf "(%c) Remove Item\n" [AChar (static_cast_char Option.RemoveItem)];
    Printf "(%c) Edit Item\n" [AChar (static_cast_char Option.EditItem)];
    Printf "(%c) Quit\n" [AChar (static_cast_char Option.Quit)] ]
  ++ get_user_action.

(** The edit branch once the replacement is there, lines 236-237. *)
Definition edit (inv : Inventory) (pitem : ItemPtr) (new_item : Item) : option Inventory :=
  inv' ← Inventory.remove inv pitem;
  Some (Inventory.add inv' new_item).

(** [handle_add_option] returns [item] to its caller: lines 257-258 of
    [run], lines 236-238 of [handle_search_option]. *)
Definition return_item (ret : Caller) (inv : Inventory) (item : Item) : Step :=
  match ret with
  | AddCommand =>
      Some (mkState (Inventory.add inv item) MainMenu,
            Printf "Added item\n\n" [] :: to_main_menu)
  | EditCommand pitem =>
      inv' ← edit inv pitem item;
      Some (mkState inv' MainMenu, to_main_menu)
  end.

(** [handle_add_option], lines 154-181. *)
Definition handle_add_option (ret : Caller) (at_ : AddPoint)
    (inv : Inventory) (input : Input) : Step :=
  match at_, input with
  | ReadCategory, Int id =>
      if negb (is_valid_product id)
      then Some (mkState inv (AddFlow ret ReadCategory),
                 invalid_option :: to_add_flow)
      else Some (mkState inv (AddFlow ret (ReadModel id)),
                 [ Printf "Enter model code: " [] ])
  | ReadModel id, Line name =>
      Some (mkState inv (AddFlow ret (ReadPrice id name)),
            [ Printf "Enter price: " [] ])
  | ReadPrice id name, Float price =>
      Some (mkState inv (AddFlow ret (ReadQuantity id name price)),
            [ Printf "Enter quantity: " [] ])
  | ReadQuantity id name price, Int nstock =>
      return_item ret inv (mkItem id name price nstock)
  | _, _ => None
  end.

(** The predicates of lines 198 and 208. *)
Definition by_name (name0 : string) : Inventory.SearchPredicate :=
  fun item => String.eqb (name item) name0.

Definition by_product (prod : Product) : Inventory.SearchPredicate :=
  fun item => Z.eqb (id item) prod.

(** Lines 217-244: the found-item menu is entered when [search] found an
    item. *)
Definition found (inv : Inventory) (pitem : option ItemPtr) : Step :=
  match pitem with
  | Some pitem => Some (mkState inv (FoundItemMenu pitem), to_found_item_menu)
  | None =>
      Some (mkState inv MainMenu,
            Printf "Item not found. Try adding an item.\n" [] :: to_main_menu)
  end.

(** [handle_search_option] up to the search, lines 184-214. *)
Definition handle_search_option (at_ : SearchPoint)
    (inv : Inventory) (input : Input) : Step :=
  match at_, input with
  | ReadMode, Char opt =>
      if Ascii.eqb opt "n"
      then Some (mkState inv (SearchFlow ReadName),
                 [ Printf "Enter model name: " [] ])
      else if Ascii.eqb opt "p"
      then Some (mkState inv (SearchFlow ReadProduct),
                 (list_products ++ [ Printf "Select product id: " [] ])%list)
      else Some (mkState inv MainMenu, invalid_option :: to_main_menu)
  | ReadName, Line name0 => found inv (Inventory.search inv (by_name name0))
  | ReadProduct, Int prod => found inv (Inventory.search inv (by_product prod))
  | _, _ => None
  end.

(** The loop of [handle_search_option] over the found item, lines
    220-242. *)
Definition found_item_menu (pitem : ItemPtr) (inv : Inventory) (input : Input) : Step :=
  match input with
  | Char opt =>
      if Ascii.eqb opt (static_cast_char Option.RemoveItem)
      then inv' ← Inventory.remove inv pitem;
           Some (mkState inv' MainMenu, to_main_menu)
      else if Ascii.eqb opt (static_cast_char Option.EditItem)
      then Some (mkState inv (AddFlow (EditCommand pitem) ReadCategory), to_add_flow)
      else if Ascii.eqb opt (static_cast_char Option.Quit)
      then Some (mkState inv MainMenu, to_main_menu)
      else Some (mkState inv (FoundItemMenu pitem),
                 invalid_option :: to_found_item_menu)
  | _ => None
  end.

(** The loop of [run], lines 251-265. *)
Definition main_menu (inv : Inventory) (input : Input) : Step :=
  match input with
  | Char opt =>
      if Ascii.eqb opt (static_cast_char Option.AddItem)
      then Some (mkState inv (AddFlow AddCommand ReadCategory), to_add_flow)
      else if Ascii.eqb opt (static_cast_char Option.SearchItem)
      then Some (mkState inv (SearchFlow ReadMode),
                 [ Printf "Search by (n) Name, (p) Product Category: " [] ])
      else if Ascii.eqb opt (static_cast_char Option.ListProducts)
      then Some (mkState inv MainMenu, (list_products ++ to_main_menu)%list)
      else if Ascii.eqb opt (static_cast_char Option.ListItems)
      then Some (mkState inv MainMenu, (Inventory.list inv ++ to_main_menu)%list)
      else if Ascii.eqb opt (static_cast_char Option.Quit)
      then Some (mkState inv Exit, [])
      else Some (mkState inv MainMenu, invalid_option :: to_main_menu)
  | _ => None
  end.

(** One read and what the program does with it. *)
Definition step (s : State) (input : Input) : Step :=
  match control s with
  | MainMenu => main_menu (inventory s) input
  | AddFlow ret at_ => handle_add_option ret at_ (inventory s) input
  | SearchFlow at_ => handle_search_option at_ (inventory s) input
  | FoundItemMenu pitem => found_item_menu pitem (inventory s) input
  | Exit => None
  end.

(** The reads of a whole input, from [s] on. *)
Fixpoint exec (s : State) (inputs : list Input) : Step :=
  match inputs with
  | [] => Some (s, [])
  | input :: rest =>
      '(s', out) ← step s input;
      '(s'', out') ← exec s' rest;
      Some (s'', (out ++ out')%list)
  end.

(** [main] and the start of [run], lines 249-253 and 271-273. *)
Definition start : State := mkState Inventory.new MainMenu.

Definition banner : list Output :=
  Printf "Shop Inventory v0.1\n" [] :: to_main_menu.

Definition run (inputs : list Input) : Step :=
  '(s, out) ← exec start inputs;
  Some (s, (banner ++ out)%list).

End InventoryUI.


(** ** The edit of an item, as the specification words it

    "After editing item X into item Y, [list] shows Y at the end of the
    sequence, not at X's original position, and X no longer appears": [inv']
    is the inventory after the edit of the item [X] found at [pitem]. *)
Definition edited_as_specified (pitem : ItemPtr) (X Y : Item) (inv' : Inventory) : Prop :=
  last (items inv') = Some Y /\
  (length (items inv') - 1)%nat <> pitem /\
  X ∉ items inv'.

(** ** Sample stock *)

Definition sk100 : Item := mkItem Product.Skirts "SK-100" 0x41C7EB85 12.
Definition dup_first : Item := mkItem Product.Dresses "DUP" 0x41200000 1.
Definition dup_second : Item := mkItem Product.Jeans "DUP" 0x41A00000 2.
Definition sh7 : Item := mkItem Product.Shorts "SH-7" 0x41700000 5.

Definition stock : Inventory := mkInventory [sk100; dup_first; dup_second].

(** The inputs that make [handle_add_option] return [item]. *)
Definition typed (item : Item) : list Input :=
  [Int (id item); Line (name item); Float (price item); Int (nstock item)].

Definition single : Inventory := mkInventory [sk100].

Definition twins : Inventory := mkInventory [dup_first; dup_first].

(** A session: an item is added after one refused category, a second item
    is added, the first one is found by its model code and edited, with
    one more refused category on the way. *)
Definition session : list Input :=
  (Char "a" :: Int 12 :: typed sk100
   ++ Char "a" :: typed dup_first
   ++ [Char "s"; Char "n"; Line "SK-100"; Char "e"]
   ++ Int (-1) :: typed sh7)%list.

(** ** What holds at every place the shell can be at *)

(** Every stored item has a valid category. *)
Definition all_valid (inv : Inventory) : Prop :=
  Forall (fun item => is_valid_product (id item) = true) (items inv).

(** Behind the category read, [item.id] is valid. *)
Definition pending_valid (c : InventoryUI.Control) : Prop :=
  match c with
  | InventoryUI.AddFlow _ (InventoryUI.ReadModel id)
  | InventoryUI.AddFlow _ (InventoryUI.ReadPrice id _)
  | InventoryUI.AddFlow _ (InventoryUI.ReadQuantity id _ _) => is_valid_product id = true
  | _ => True
  end.

(** The item found is still in the vector. *)
Definition handle_valid (inv : Inventory) (c : InventoryUI.Control) : Prop :=
  match c with
  | InventoryUI.FoundItemMenu pitem
  | InventoryUI.AddFlow (InventoryUI.EditCommand pitem) _ => (pitem < length (items inv))%nat
  | _ => True
  end.

(** The kind of value the read at a place delivers. *)
Definition reads (c : InventoryUI.Control) (input : Input) : bool :=
  match c, input with
  | InventoryUI.MainMenu, Char _
  | InventoryUI.FoundItemMenu _, Char _
  | InventoryUI.SearchFlow InventoryUI.ReadMode, Char _
  | InventoryUI.AddFlow _ InventoryUI.ReadCategory, Int _
  | InventoryUI.AddFlow _ (InventoryUI.ReadQuantity _ _ _), Int _
  | InventoryUI.SearchFlow InventoryUI.ReadProduct, Int _
  | InventoryUI.AddFlow _ (InventoryUI.ReadModel _), Line _
  | InventoryUI.SearchFlow InventoryUI.ReadName, Line _
  | InventoryUI.AddFlow _ (InventoryUI.ReadPrice _ _), Float _ => true
  | _, _ => false
  end.

Definition invariant (s : InventoryUI.State) : Prop :=
  all_valid (InventoryUI.inventory s) /\
  pending_valid (InventoryUI.control s) /\
  handle_valid (InventoryUI.inventory s) (InventoryUI.control s).

(** ** Reading the console output *)

(** The command characters a menu shows: the [%c] arguments of its lines. *)
Definition offered (menu : list Output) : list ascii :=
  menu ≫= fun line =>
    match line with
    | Printf _ [AChar c] => [c]
    | _ => []
    end.


(** What the category read prints for each refused category, lines 164 and
    158-160. *)
Definition refusals (refused : list Z) : list Output :=
  refused ≫= fun _ => InventoryUI.invalid_option :: InventoryUI.to_add_flow.

(** The inputs that add the items of a list, one [a] command each. *)
Definition add_commands (added : list Item) : list Input :=
  added ≫= fun item => Char "a" :: typed item.

(** ** The catalog: [is_valid_product] and [get_product_name] *)

Lemma is_valid_product_range (prod : Product) :
  is_valid_product prod = true <-> Product.Invalid < prod < Product.Count.
Proof.
  unfold is_valid_product.
  rewrite andb_true_iff, Z.gtb_ltb, !Z.ltb_lt. tauto.
Qed.

Lemma is_valid_product_declared (prod : Product) :
  is_valid_product prod = true <-> prod ∈ Product.declared.
Proof.
  rewrite is_valid_product_range.
  unfold Product.declared, Product.Invalid, Product.Count, Product in *.
  split.
  - intros Hrange.
    assert (Hcases : prod = 0 \/ prod = 1 \/ prod = 2 \/ prod = 3 \/ prod = 4 \/
                     prod = 5 \/ prod = 6 \/ prod = 7 \/ prod = 8 \/ prod = 9) by lia.
    repeat (destruct Hcases as [-> | Hcases]); try subst prod;
      unfold Product.Dresses, Product.CropTops, Product.SweatshirtsHoodies,
        Product.Blouses, Product.Skirts, Product.Shorts, Product.Jeans,
        Product.MatchingSets, Product.Swimwear, Product.Accessories;
      repeat constructor.
  - intros Hin.
    repeat (apply elem_of_cons in Hin as [-> | Hin]; [vm_compute; split; reflexivity |]).
    by apply elem_of_nil in Hin.
Qed.

Lemma PRODUCT_NAMES_table :
  PRODUCT_NAMES =
    ["Dresses"; "Crop Tops"; "Sweatshirts & Hoodies"; "Blouses"; "Skirts";
     "Shorts"; "Jeans"; "MatchingSets"; "Swimwear"; "Accessories"].
Proof. reflexivity. Qed.

(** C6: [is_valid_product] holds exactly for the identifiers strictly between
    [Invalid] and [Count]: it rejects both sentinels and every value outside
    the range, and the values it accepts are the ten declared categories,
    each listed once. *)
Theorem is_valid_product_spec :
  (forall prod : Product,
     is_valid_product prod = true <-> Product.Invalid < prod < Product.Count) /\
  is_valid_product Product.Invalid = false /\
  is_valid_product Product.Count = false /\
  (forall prod : Product,
     prod <= Product.Invalid \/ Product.Count <= prod -> is_valid_product prod = false) /\
  (forall prod : Product, is_valid_product prod = true <-> prod ∈ Product.declared) /\
  NoDup Product.declared /\
  length Product.declared = 10%nat.
Proof.
  split; [exact is_valid_product_range |].
  split; [reflexivity |]. split; [reflexivity |].
  split.
  - intros prod Hout. apply not_true_is_false. rewrite is_valid_product_range. lia.
  - split; [exact is_valid_product_declared |].
    split; [| reflexivity].
    apply (bool_decide_unpack _). reflexivity.
Qed.

(** C7: [get_product_name] returns the entry of [PRODUCT_NAMES] designated by
    a valid identifier and the empty string for an invalid one; the ten
    categories have the names written in the table, [Dresses] has "Dresses",
    and both sentinels have the empty string. *)
Theorem get_product_name_spec :
  (forall prod : Product,
     is_valid_product prod = true ->
     PRODUCT_NAMES !! index_of prod = Some (get_product_name prod)) /\
  (forall prod : Product,
     is_valid_product prod = false -> get_product_name prod = EmptyString) /\
  map get_product_name Product.declared =
    ["Dresses"; "Crop Tops"; "Sweatshirts & Hoodies"; "Blouses"; "Skirts";
     "Shorts"; "Jeans"; "MatchingSets"; "Swimwear"; "Accessories"] /\
  get_product_name Product.Dresses = "Dresses" /\
  get_product_name Product.Count = EmptyString /\
  get_product_name Product.Invalid = EmptyString.
Proof.
  split.
  - intros prod Hvalid. unfold get_product_name. rewrite Hvalid. simpl.
    apply is_valid_product_declared in Hvalid.
    repeat (apply elem_of_cons in Hvalid as [-> | Hvalid]; [reflexivity |]).
    by apply elem_of_nil in Hvalid.
  - split.
    + intros prod Hinvalid. unfold get_product_name. by rewrite Hinvalid.
    + repeat split; reflexivity.
Qed.

(** ** The store: [search], [add], [remove] *)

Section Store.

Implicit Types (v : list Item) (pred : Inventory.SearchPredicate).
Implicit Types (inv : Inventory) (item : Item) (pitem : ItemPtr).

Lemma find_if_le v pred : (Inventory.find_if v pred <= length v)%nat.
Proof.
  induction v as [| x rest IH]; simpl; [lia |].
  destruct (pred x); lia.
Qed.

Lemma find_if_found v pred :
  (Inventory.find_if v pred < length v)%nat ->
  exists item, v !! Inventory.find_if v pred = Some item /\ pred item = true.
Proof.
  induction v as [| x rest IH]; simpl; [lia |].
  destruct (pred x) eqn:Hx; intros Hlt.
  - exists x. by split.
  - apply IH. lia.
Qed.

Lemma find_if_before v pred j item :
  (j < Inventory.find_if v pred)%nat -> v !! j = Some item -> pred item = false.
Proof.
  revert j. induction v as [| x rest IH]; intros j; simpl; [lia |].
  destruct (pred x) eqn:Hx; [lia |].
  destruct j as [| j]; simpl.
  - intros _ [= <-]. exact Hx.
  - intros Hlt. apply IH. lia.
Qed.

Lemma find_if_first v pred i item :
  v !! i = Some item -> pred item = true ->
  (forall j y, (j < i)%nat -> v !! j = Some y -> pred y = false) ->
  Inventory.find_if v pred = i.
Proof.
  revert i. induction v as [| x rest IH]; intros i Hi Hp Hbefore; [done |].
  simpl. destruct i as [| i]; simpl in Hi.
  - injection Hi as ->. by rewrite Hp.
  - rewrite (Hbefore O x); [| lia | done].
    f_equal. apply IH; [done | done |].
    intros j y Hj Hy. apply (Hbefore (S j) y); [lia | done].
Qed.

Lemma find_if_end v pred :
  Inventory.find_if v pred = length v <-> Forall (fun item => pred item = false) v.
Proof.
  induction v as [| x rest IH]; simpl.
  - split; [constructor | done].
  - rewrite Forall_cons. destruct (pred x) eqn:Hx.
    + split; [done | intros [? _]; done].
    + rewrite <- IH. split; [intros [= ->]; done | intros [_ ->]; done].
Qed.

Lemma search_Some inv pred pitem :
  Inventory.search inv pred = Some pitem <->
  (exists item, items inv !! pitem = Some item /\ pred item = true) /\
  (forall j y, (j < pitem)%nat -> items inv !! j = Some y -> pred y = false).
Proof.
  unfold Inventory.search.
  pose proof (find_if_le (items inv) pred) as Hle.
  destruct (Nat.eqb_spec (Inventory.find_if (items inv) pred) (length (items inv)))
    as [Hend | Hin]; simpl.
  - split; [done |]. intros [(item & Hitem & Hp) _].
    apply find_if_end in Hend. rewrite Forall_lookup in Hend.
    specialize (Hend _ _ Hitem). simpl in Hend. congruence.
  - split.
    + intros [= <-]. split.
      * apply find_if_found. lia.
      * intros j y. apply find_if_before.
    + intros [(item & Hitem & Hp) Hbefore]. f_equal.
      by apply (find_if_first _ _ _ item).
Qed.

Lemma search_None inv pred :
  Inventory.search inv pred = None <->
  forall item, item ∈ items inv -> pred item = false.
Proof.
  unfold Inventory.search. rewrite <- Forall_forall, <- find_if_end.
  destruct (Nat.eqb_spec (Inventory.find_if (items inv) pred) (length (items inv)));
    simpl; split; done.
Qed.

Lemma search_in_range inv pred pitem :
  Inventory.search inv pred = Some pitem -> (pitem < length (items inv))%nat.
Proof.
  intros Hs. apply search_Some in Hs as [(item & Hitem & _) _].
  by apply lookup_lt_Some in Hitem.
Qed.

(** [search] is the library's search for the first match. *)
Lemma search_list_find inv pred :
  Inventory.search inv pred = fst <$> list_find (fun item => pred item = true) (items inv).
Proof.
  destruct (list_find _ _) as [[i x] |] eqn:Hfind; simpl.
  - apply list_find_Some in Hfind as (Hi & Hp & Hbefore).
    apply search_Some. split; [by exists x |].
    intros j y Hj Hy. specialize (Hbefore j y Hy Hj).
    by apply not_true_is_false.
  - apply search_None. intros item Hin.
    apply list_find_None in Hfind. rewrite Forall_forall in Hfind.
    apply not_true_is_false. by apply Hfind.
Qed.

Lemma erase_delete v pos :
  (pos < length v)%nat -> Inventory.erase v pos = Some (delete pos v).
Proof.
  revert pos. induction v as [| x rest IH]; intros pos; simpl; [lia |].
  destruct pos as [| pos]; [done |].
  intros Hlt. rewrite IH; [done | lia].
Qed.

Lemma erase_end v pos :
  (length v <= pos)%nat -> Inventory.erase v pos = None.
Proof.
  revert pos. induction v as [| x rest IH]; intros pos; simpl; [done |].
  destruct pos as [| pos]; [lia |].
  intros Hle. rewrite IH; [done | lia].
Qed.

Lemma remove_Some inv pitem :
  (pitem < length (items inv))%nat ->
  Inventory.remove inv pitem = Some (mkInventory (delete pitem (items inv))).
Proof. intros Hlt. unfold Inventory.remove. by rewrite erase_delete. Qed.

Lemma foldl_add inv (added : list Item) :
  items (foldl Inventory.add inv added) = (items inv ++ added)%list.
Proof.
  revert inv. induction added as [| item added IH]; intros inv; simpl.
  - by rewrite app_nil_r.
  - rewrite IH. simpl. by rewrite <- app_assoc.
Qed.

End Store.

(** C1: [search] returns the position of the first element, in sequence
    order, for which the predicate holds, and returns nothing exactly when
    the predicate holds for no element. *)
Theorem search_first_match (inv : Inventory) (pred : Inventory.SearchPredicate) :
  (forall pitem : ItemPtr,
     Inventory.search inv pred = Some pitem <->
     (exists item, items inv !! pitem = Some item /\ pred item = true) /\
     (forall j y, (j < pitem)%nat -> items inv !! j = Some y -> pred y = false)) /\
  (Inventory.search inv pred = None <->
   forall item, item ∈ items inv -> pred item = false).
Proof.
  split; [intros pitem; apply search_Some | apply search_None].
Qed.

(** C2: [add] puts the item at the end of the sequence, whatever the
    inventory holds, also at and beyond [MAX_ITEMS] items; after any sequence
    of [add]s on a new inventory, [list] prints the header, one row for each
    added item in the order of the [add]s, and the closing line.  The row of
    an item is the [printf] of line 112 with the name of its category, its
    model code, its price and its quantity. *)
Theorem add_appends_list_enumerates :
  (forall (inv : Inventory) (item : Item),
     items (Inventory.add inv item) = (items inv ++ [item])%list) /\
  (forall (inv : Inventory) (item : Item),
     (MAX_ITEMS <= length (items inv))%nat ->
     length (items (Inventory.add inv item)) = S (length (items inv))) /\
  (forall (inv : Inventory) (added : list Item),
     items (foldl Inventory.add inv added) = (items inv ++ added)%list) /\
  (forall added : list Item,
     items (foldl Inventory.add Inventory.new added) = added /\
     Inventory.list (foldl Inventory.add Inventory.new added) =
       (Printf "%32s%64s%16s%8s\n"
          [AStr "Product"; AStr "Model Code"; AStr "Price (GBP)"; AStr "Qty."]
        :: map (fun item =>
                  Printf "%32s%64s%16.2f%8d\n"
                    [AStr (get_product_name (id item)); AStr (name item);
                     AFloat (price item); AInt (nstock item)])
               added
        ++ [Printf "---------------\n" []])%list).
Proof.
  split; [reflexivity |].
  split; [intros inv item _; simpl; rewrite length_app; simpl; lia |].
  split; [apply foldl_add |].
  intros added. unfold Inventory.list. rewrite foldl_add.
  split; reflexivity.
Qed.

(** C3: [remove] at the position a successful [search] returned, with no
    mutation in between, succeeds on a non-empty inventory, takes out the
    element at that position and nothing else, makes the inventory one item
    shorter, and leaves the other elements in their order: those before the
    position stay in place and those behind it move one place forward. *)
Theorem remove_found (inv : Inventory) (pred : Inventory.SearchPredicate) (pitem : ItemPtr) :
  Inventory.search inv pred = Some pitem ->
  items inv <> [] /\
  exists (item : Item) (inv' : Inventory),
    items inv !! pitem = Some item /\
    Inventory.remove inv pitem = Some inv' /\
    S (length (items inv')) = length (items inv) /\
    items inv = (take pitem (items inv) ++ item :: drop (S pitem) (items inv))%list /\
    items inv' = (take pitem (items inv) ++ drop (S pitem) (items inv))%list /\
    (forall j, (j < pitem)%nat -> items inv' !! j = items inv !! j) /\
    (forall j, (pitem <= j)%nat -> items inv' !! j = items inv !! S j).
Proof.
  intros Hsearch.
  pose proof (search_in_range _ _ _ Hsearch) as Hlt.
  destruct (lookup_lt_is_Some_2 _ _ Hlt) as [item Hitem].
  split; [intros Hnil; rewrite Hnil in Hlt; simpl in Hlt; lia |].
  exists item, (mkInventory (delete pitem (items inv))). simpl.
  split; [exact Hitem |].
  split; [by apply remove_Some |].
  split; [rewrite length_delete by eauto; lia |].
  split; [symmetry; by apply take_drop_middle |].
  split; [apply delete_take_drop |].
  split; intros j Hj; [by apply list_lookup_delete_lt | by apply list_lookup_delete_ge].
Qed.

Lemma remove_found_witness :
  Inventory.search stock (InventoryUI.by_name "DUP") = Some 1%nat /\
  exists inv', Inventory.remove stock 1%nat = Some inv' /\ items inv' = [sk100; dup_second].
Proof.
  split; [reflexivity |].
  destruct (remove_found stock (InventoryUI.by_name "DUP") 1%nat eq_refl)
    as (_ & item & inv' & _ & Hremove & _ & _ & Hrest & _).
  exists inv'. split; [exact Hremove | exact Hrest].
Defined.

(** C5: when two items carry the same model code, at positions [i] before
    [j], and no other item up to [j] carries it, [search] by that code
    returns [i], the item that was added first; after [remove] at [i], the
    same [search] returns the position the other item has moved to. *)
Theorem search_duplicate_model_code (inv : Inventory) (code : string)
    (i j : nat) (first second : Item) :
  items inv !! i = Some first -> items inv !! j = Some second ->
  (i < j)%nat ->
  name first = code -> name second = code ->
  (forall k item, (k < j)%nat -> k <> i -> items inv !! k = Some item -> name item <> code) ->
  Inventory.search inv (InventoryUI.by_name code) = Some i /\
  exists inv' : Inventory,
    Inventory.remove inv i = Some inv' /\
    Inventory.search inv' (InventoryUI.by_name code) = Some (pred j) /\
    items inv' !! pred j = Some second.
Proof.
  intros Hi Hj Hij Hfirst Hsecond Hothers.
  assert (Hmatch : forall item, name item = code -> InventoryUI.by_name code item = true).
  { intros item <-. apply String.eqb_refl. }
  assert (Hmiss : forall item, name item <> code -> InventoryUI.by_name code item = false).
  { intros item Hne. by apply String.eqb_neq. }
  split.
  - apply search_Some. split; [exists first; auto |].
    intros k item Hk Hitem. apply Hmiss. apply (Hothers k); [lia | lia | done].
  - exists (mkInventory (delete i (items inv))).
    split; [apply remove_Some; by apply lookup_lt_Some in Hi |].
    assert (Hmoved : delete i (items inv) !! pred j = Some second).
    { rewrite list_lookup_delete_ge by lia. by replace (S (pred j)) with j by lia. }
    split; [| exact Hmoved].
    apply search_Some. simpl. split; [exists second; auto |].
    intros k item Hk. destruct (decide (k < i)%nat) as [Hlt | Hge].
    + rewrite list_lookup_delete_lt by done.
      intros Hitem. apply Hmiss. apply (Hothers k); [lia | lia | done].
    + rewrite list_lookup_delete_ge by lia.
      intros Hitem. apply Hmiss. apply (Hothers (S k)); [lia | lia | done].
Qed.

Lemma search_duplicate_model_code_witness :
  Inventory.search stock (InventoryUI.by_name "DUP") = Some 1%nat /\
  exists inv' : Inventory,
    Inventory.remove stock 1%nat = Some inv' /\
    Inventory.search inv' (InventoryUI.by_name "DUP") = Some 1%nat /\
    items inv' !! 1%nat = Some dup_second.
Proof.
  apply (search_duplicate_model_code stock "DUP" 1 2 dup_first dup_second);
    try reflexivity; [lia |].
  intros k item Hk Hne. destruct k as [| [| k]]; [| done | lia].
  intros [= <-]. discriminate.
Defined.

(** ** The shell *)

Section Shell.

Import InventoryUI.

Implicit Types (s : State) (inv : Inventory) (input : Input) (out : list Output).

Lemma option_characters :
  static_cast_char Option.AddItem = "a"%char /\
  static_cast_char Option.RemoveItem = "r"%char /\
  static_cast_char Option.EditItem = "e"%char /\
  static_cast_char Option.SearchItem = "s"%char /\
  static_cast_char Option.ListProducts = "p"%char /\
  static_cast_char Option.ListItems = "l"%char /\
  static_cast_char Option.Quit = "q"%char.
Proof. repeat split; reflexivity. Qed.

Lemma exec_app s (xs ys : list Input) :
  exec s (xs ++ ys) =
    '(s', out) ← exec s xs; '(s'', out') ← exec s' ys; Some (s'', (out ++ out')%list).
Proof.
  revert s. induction xs as [| x xs IH]; intros s; simpl.
  - by destruct (exec s ys) as [[s' out'] |].
  - destruct (step s x) as [[s1 out1] |]; simpl; [| done].
    rewrite IH. destruct (exec s1 xs) as [[s2 out2] |]; simpl; [| done].
    destruct (exec s2 ys) as [[s3 out3] |]; simpl; [| done].
    by rewrite app_assoc.
Qed.

Lemma exec_snoc s (xs : list Input) input s' out :
  exec s (xs ++ [input]) = Some (s', out) ->
  exists s0 out0 out1,
    exec s xs = Some (s0, out0) /\ step s0 input = Some (s', out1).
Proof.
  rewrite exec_app. destruct (exec s xs) as [[s0 out0] |]; simpl; [| done].
  destruct (step s0 input) as [[s1 out1] |] eqn:Hstep; simpl; [| done].
  intros [= <- _]. by exists s0, out0, out1.
Qed.

(** A transition into [Exit] is the [Quit] branch of [run]. *)
Lemma step_Exit s input s' out :
  step s input = Some (s', out) -> control s' = Exit ->
  control s = MainMenu /\ input = Char (static_cast_char Option.Quit) /\
  inventory s' = inventory s.
Proof.
  destruct s as [inv c]. unfold step. simpl.
  destruct c as [| ret at_ | at_ | pitem |]; [| | | | done].
  - unfold main_menu. destruct input as [opt | | |]; try done.
    repeat case_match; intros [= <- <-]; try done.
    intros _. split; [done |]. split; [| done].
    f_equal. by apply Ascii.eqb_eq.
  - unfold handle_add_option, return_item, edit.
    destruct at_, input; try done; repeat case_match;
      intros; simplify_option_eq; done.
  - unfold handle_search_option, found.
    destruct at_, input; try done; repeat case_match;
      intros; simplify_option_eq; done.
  - unfold found_item_menu.
    destruct input; try done; repeat case_match;
      intros; simplify_option_eq; done.
Qed.

Lemma remove_inv inv pitem inv' :
  Inventory.remove inv pitem = Some inv' ->
  (pitem < length (items inv))%nat /\ items inv' = delete pitem (items inv).
Proof.
  intros Hremove. destruct (decide (pitem < length (items inv))%nat) as [Hlt | Hge].
  - rewrite remove_Some in Hremove by done. by injection Hremove as <-.
  - unfold Inventory.remove in Hremove. rewrite erase_end in Hremove by lia. done.
Qed.

Lemma all_valid_add inv item :
  all_valid inv -> is_valid_product (id item) = true ->
  all_valid (Inventory.add inv item).
Proof.
  unfold all_valid. simpl. intros Hall Hitem.
  apply Forall_app. split; [done |]. by repeat constructor.
Qed.

Lemma all_valid_remove inv pitem inv' :
  all_valid inv -> Inventory.remove inv pitem = Some inv' -> all_valid inv'.
Proof.
  unfold all_valid. intros Hall Hremove.
  apply remove_inv in Hremove as [_ ->]. by apply Forall_delete.
Qed.

Lemma step_invariant s input s' out :
  invariant s -> step s input = Some (s', out) -> invariant s'.
Proof.
  destruct s as [inv c]. intros (Hall & Hpending & Hhandle).
  unfold invariant, step in *. simpl in *.
  destruct c as [| ret at_ | at_ | pitem |]; [| | | | done].
  - unfold main_menu. destruct input as [opt | | |]; try done.
    repeat case_match; intros [= <- <-]; simpl; done.
  - unfold handle_add_option.
    destruct at_ as [| id0 | id0 name0 | id0 name0 price0], input as [| n | |];
      try done.
    + destruct (is_valid_product n) eqn:Hn; simpl; intros [= <- <-]; simpl;
        repeat split; try done; by destruct ret.
    + intros [= <- <-]. simpl. repeat split; try done; by destruct ret.
    + intros [= <- <-]. simpl. repeat split; try done; by destruct ret.
    + unfold return_item, edit. destruct ret as [| pitem].
      * intros [= <- <-]. simpl. repeat split; try done.
        by apply all_valid_add.
      * destruct (Inventory.remove inv pitem) as [inv1 |] eqn:Hremove;
          simpl; [| done].
        intros [= <- <-]. simpl. repeat split; try done.
        apply all_valid_add; [| done]. by apply (all_valid_remove inv pitem).
  - unfold handle_search_option, found.
    destruct at_, input as [opt | prod | name0 |]; try done.
    + repeat case_match; intros [= <- <-]; simpl; done.
    + destruct (Inventory.search inv (by_name name0)) as [pitem |] eqn:Hsearch;
        intros [= <- <-]; simpl; repeat split; try done.
      by apply search_in_range in Hsearch.
    + destruct (Inventory.search inv (by_product prod)) as [pitem |] eqn:Hsearch;
        intros [= <- <-]; simpl; repeat split; try done.
      by apply search_in_range in Hsearch.
  - unfold found_item_menu. destruct input as [opt | | |]; try done.
    repeat case_match; try (intros [= <- <-]; simpl; done).
    destruct (Inventory.remove inv pitem) as [inv1 |] eqn:Hremove; simpl; [| done].
    intros [= <- <-]. simpl. repeat split; try done.
    by apply (all_valid_remove inv pitem).
Qed.

Lemma exec_invariant (inputs : list Input) s s' out :
  invariant s -> exec s inputs = Some (s', out) -> invariant s'.
Proof.
  revert s out. induction inputs as [| input rest IH]; intros s out Hinv; simpl.
  - by intros [= <- _].
  - destruct (step s input) as [[s1 out1] |] eqn:Hstep; simpl; [| done].
    destruct (exec s1 rest) as [[s2 out2] |] eqn:Hrest; simpl; [| done].
    intros [= <- _]. apply (IH s1 out2); [| done].
    by apply (step_invariant s input s1 out1).
Qed.

Lemma start_invariant : invariant start.
Proof. repeat split. constructor. Qed.

Lemma run_invariant (inputs : list Input) s out :
  run inputs = Some (s, out) -> invariant s.
Proof.
  unfold run. destruct (exec start inputs) as [[s1 out1] |] eqn:Hexec; simpl; [| done].
  intros [= <- _]. apply (exec_invariant inputs start s1 out1); [| done].
  apply start_invariant.
Qed.

(** A transition exists only for the kind of value the place reads, and in
    the states a run reaches it exists for every such value: [erase] is never
    called on a position outside the vector. *)
Lemma step_reads s input :
  is_Some (step s input) -> reads (control s) input = true.
Proof.
  destruct s as [inv c]. intros [r Hstep]. revert Hstep. unfold step. simpl.
  destruct c as [| ret [| | |] | [| |] | pitem |], input; simpl; done.
Qed.

Lemma step_progress s input :
  invariant s -> reads (control s) input = true -> is_Some (step s input).
Proof.
  destruct s as [inv c]. intros (_ & _ & Hhandle). unfold step. simpl in *.
  destruct c as [| ret [| | |] | [| |] | pitem |], input; simpl; try done; intros _;
    unfold main_menu, return_item, edit, found, found_item_menu;
    try (destruct ret as [| pitem]; simpl in Hhandle);
    try (rewrite remove_Some by done; simpl);
    repeat case_match; eauto.
Qed.

(** In the found-item menu the item found can be removed. *)
Lemma found_item_removable (inputs : list Input) s out pitem :
  run inputs = Some (s, out) -> control s = FoundItemMenu pitem ->
  is_Some (Inventory.remove (inventory s) pitem).
Proof.
  intros Hrun Hcontrol. apply run_invariant in Hrun as (_ & _ & Hhandle).
  rewrite Hcontrol in Hhandle. simpl in Hhandle.
  rewrite remove_Some by done. eauto.
Qed.

(** C9: in the found-item menu, the [Quit] command [q] leads back to the
    main menu and leaves the inventory as it was, whatever it holds and
    whichever item was found. *)
Theorem found_item_menu_quit inv (pitem : ItemPtr) :
  static_cast_char Option.Quit = "q"%char /\
  step (mkState inv (FoundItemMenu pitem)) (Char "q") =
    Some (mkState inv MainMenu, to_main_menu).
Proof. split; reflexivity. Qed.

(** C8: a run of the shell reaches [Exit] only by reading [q] at the main
    menu, as the last input, and nothing is read after it; a main-menu
    command other than [a], [s], [p], [l] and [q] prints the error line
    "Invalid option selected. Please try again." and the main menu again,
    and leaves the shell at the main menu with its inventory. *)
Theorem run_exits_only_by_quit :
  (forall (inputs : list Input) s out,
     run inputs = Some (s, out) -> control s = Exit ->
     exists (before : list Input) s0 out0,
       inputs = (before ++ [Char "q"])%list /\
       run before = Some (s0, out0) /\
       control s0 = MainMenu /\
       inventory s = inventory s0) /\
  (forall s input s' out,
     step s input = Some (s', out) -> control s' = Exit ->
     control s = MainMenu /\ input = Char "q") /\
  (forall s input, control s = Exit -> step s input = None) /\
  (forall inv, step (mkState inv MainMenu) (Char "q") = Some (mkState inv Exit, [])) /\
  (forall inv (opt : ascii),
     opt ∉ ["a"; "s"; "p"; "l"; "q"]%char ->
     step (mkState inv MainMenu) (Char opt) =
       Some (mkState inv MainMenu,
             [ Printf "Invalid option selected. Please try again.\n" [];
               Printf "(%c) Add Item\n" [AChar "a"];
               Printf "(%c) Search Item\n" [AChar "s"];
               Printf "(%c) List Product Categories\n" [AChar "p"];
               Printf "(%c) List Items in Stock\n" [AChar "l"];
               Printf "(%c) Quit\n" [AChar "q"];
               Printf "Select operation: " [] ])).
Proof.
  split; [| split; [| split; [| split]]].
  - intros inputs s out Hrun Hexit. unfold run in *.
    destruct (exec start inputs) as [[s1 out1] |] eqn:Hexec; simpl in Hrun; [| done].
    injection Hrun as -> _.
    destruct inputs as [| input inputs _] using rev_ind.
    + simpl in Hexec. injection Hexec as <- _. done.
    + apply exec_snoc in Hexec as (s0 & out0 & out' & Hbefore & Hstep).
      destruct (step_Exit _ _ _ _ Hstep Hexit) as (Hmain & -> & Hsame).
      exists inputs, s0, (banner ++ out0)%list.
      rewrite Hbefore. simpl. done.
  - intros s input s' out Hstep Hexit.
    destruct (step_Exit _ _ _ _ Hstep Hexit) as (Hmain & -> & _). done.
  - intros [inv c] input. simpl. intros ->. reflexivity.
  - reflexivity.
  - intros inv opt Hopt. unfold step, main_menu. simpl.
    rewrite !not_elem_of_cons in Hopt.
    destruct Hopt as (Ha & Hs & Hp & Hl & Hq & _).
    destruct option_characters as (-> & _ & _ & -> & -> & -> & ->).
    apply Ascii.eqb_neq in Ha, Hs, Hp, Hl, Hq.
    by rewrite Ha, Hs, Hp, Hl, Hq.
Qed.

(** C10: in every state a run of the shell reaches, every stored item has a
    valid category, one strictly between [Invalid] and [Count]: an item gets
    into the inventory only from [handle_add_option], which asks for the
    category again until [is_valid_product] accepts it. *)
Theorem stored_items_have_valid_category (inputs : list Input) s out :
  run inputs = Some (s, out) ->
  forall item : Item,
    item ∈ items (inventory s) ->
    is_valid_product (id item) = true /\
    Product.Invalid < id item < Product.Count.
Proof.
  intros Hrun item Hin. apply run_invariant in Hrun as (Hall & _ & _).
  unfold all_valid in Hall. rewrite Forall_forall in Hall.
  specialize (Hall item Hin). split; [done |].
  by apply is_valid_product_range.
Qed.

Lemma stored_items_have_valid_category_witness :
  exists s out,
    run session = Some (s, out) /\
    items (inventory s) = [dup_first; sh7] /\
    is_valid_product (id sh7) = true /\
    Product.Invalid < id sh7 < Product.Count.
Proof.
  eexists _, _. split; [vm_compute; reflexivity |].
  split; [reflexivity |].
  refine (stored_items_have_valid_category session _ _ _ sh7 _).
  - vm_compute. reflexivity.
  - simpl. repeat constructor.
Defined.

Lemma elem_of_delete (l : list Item) (i : nat) (x : Item) :
  x ∈ delete i l <-> exists j, j <> i /\ l !! j = Some x.
Proof.
  rewrite list_elem_of_lookup. split.
  - intros [k Hk]. rewrite list_lookup_delete in Hk.
    destruct (decide (k < i)%nat); [exists k | exists (S k)]; split; [lia | done | lia | done].
  - intros (j & Hne & Hj). destruct (decide (j < i)%nat) as [Hlt | Hge].
    + exists j. by rewrite list_lookup_delete_lt.
    + exists (pred j). rewrite list_lookup_delete_ge by lia.
      by replace (S (pred j)) with j by lia.
Qed.

(** C4, as the code has it: the edit of the item [X] found at [pitem] into
    [Y] yields the sequence without the element at [pitem], followed by [Y]:
    [Y] is the last element and the size is unchanged.  The position of [Y]
    differs from the one [X] had exactly when [X] was not the last element,
    and [X] no longer appears exactly when [Y] differs from [X] and [X]
    occurred at [pitem] only.  The shell does this on [e] in the found-item
    menu followed by the fields of [Y]. *)
Theorem edit_removes_then_appends inv (pred : Inventory.SearchPredicate)
    (pitem : ItemPtr) (X Y : Item) :
  Inventory.search inv pred = Some pitem ->
  items inv !! pitem = Some X ->
  exists inv' : Inventory,
    edit inv pitem Y = Some inv' /\
    items inv' = (delete pitem (items inv) ++ [Y])%list /\
    last (items inv') = Some Y /\
    length (items inv') = length (items inv) /\
    ((length (items inv') - 1)%nat <> pitem <-> (S pitem < length (items inv))%nat) /\
    (X ∉ items inv' <-> Y <> X /\ forall j, items inv !! j = Some X -> j = pitem) /\
    (is_valid_product (id Y) = true ->
     fst <$> exec (mkState inv (FoundItemMenu pitem)) (Char "e" :: typed Y) =
       Some (mkState inv' MainMenu)).
Proof.
  intros Hsearch HX.
  pose proof (search_in_range _ _ _ Hsearch) as Hlt.
  assert (Hedit : edit inv pitem Y =
                  Some (mkInventory (delete pitem (items inv) ++ [Y]))).
  { unfold edit. by rewrite remove_Some. }
  assert (Hlen : length (delete pitem (items inv) ++ [Y]) = length (items inv)).
  { rewrite length_app, length_delete by eauto. simpl. lia. }
  exists (mkInventory (delete pitem (items inv) ++ [Y])). simpl.
  split; [exact Hedit |]. split; [reflexivity |].
  split; [apply last_snoc |]. split; [exact Hlen |].
  split; [rewrite Hlen; lia |]. split.
  - rewrite elem_of_app, list_elem_of_singleton, elem_of_delete. split.
    + intros Hnot. split; [intros ->; tauto |].
      intros j Hj. destruct (decide (j = pitem)); [done |].
      exfalso. apply Hnot. left. by exists j.
    + intros [Hne Honly] [(j & Hj & HjX) | ->]; [| done].
      by apply Hj, Honly.
  - intros Hvalid. destruct Y as [id0 name0 price0 nstock0].
    unfold typed, exec, step, handle_add_option. simpl in *.
    rewrite Hvalid. simpl. unfold return_item. rewrite Hedit. reflexivity.
Qed.

Lemma edit_removes_then_appends_witness :
  Inventory.search stock (by_name "DUP") = Some 1%nat /\
  exists inv' : Inventory,
    edit stock 1%nat sh7 = Some inv' /\
    items inv' = [sk100; dup_second; sh7] /\
    fst <$> exec (mkState stock (FoundItemMenu 1%nat)) (Char "e" :: typed sh7) =
      Some (mkState inv' MainMenu).
Proof.
  split; [reflexivity |].
  destruct (edit_removes_then_appends stock (by_name "DUP") 1%nat dup_first sh7
              eq_refl eq_refl)
    as (inv' & Hedit & Hitems & _ & _ & _ & _ & Hshell).
  exists inv'. split; [exact Hedit |]. split; [exact Hitems |].
  apply Hshell. reflexivity.
Defined.

(** C4, as the specification words it, fails on an inventory whose only item
    is edited: the replacement is at the end, and the end is the position
    the edited item had. *)
Lemma edit_of_last_item_keeps_position :
  Inventory.search single (by_name "SK-100") = Some 0%nat /\
  items single !! 0%nat = Some sk100 /\
  edit single 0%nat sh7 = Some (mkInventory [sh7]) /\
  items (mkInventory [sh7]) !! 0%nat = Some sh7 /\
  fst <$> run (Char "a" :: typed sk100
               ++ [Char "s"; Char "n"; Line "SK-100"; Char "e"] ++ typed sh7)%list =
    Some (mkState (mkInventory [sh7]) MainMenu) /\
  ~ edited_as_specified 0%nat sk100 sh7 (mkInventory [sh7]).
Proof.
  repeat split; try reflexivity.
  intros (_ & Hposition & _). simpl in Hposition. lia.
Qed.

(** The edited item still appears when the inventory holds it twice. *)
Lemma edit_keeps_twin :
  Inventory.search twins (by_name "DUP") = Some 0%nat /\
  edit twins 0%nat sh7 = Some (mkInventory [dup_first; sh7]) /\
  ~ edited_as_specified 0%nat dup_first sh7 (mkInventory [dup_first; sh7]).
Proof.
  repeat split; try reflexivity.
  intros (_ & _ & Habsent). apply Habsent. simpl. constructor.
Qed.

(** The two scenarios of the specification, run through the shell. *)
Example scenario_add_list_search_remove :
  (exists out, run (Char "a" :: typed sk100 ++ [Char "l"])%list =
     Some (mkState single MainMenu, out) /\
     Inventory.row sk100 ∈ out) /\
  fst <$> run (Char "a" :: typed sk100 ++ [Char "s"; Char "n"; Line "SK-100"])%list =
    Some (mkState single (FoundItemMenu 0%nat)) /\
  fst <$> run (Char "a" :: typed sk100
               ++ [Char "s"; Char "n"; Line "SK-100"; Char "r"])%list =
    Some (mkState Inventory.new MainMenu) /\
  Inventory.list Inventory.new =
    [Printf "%32s%64s%16s%8s\n"
       [AStr "Product"; AStr "Model Code"; AStr "Price (GBP)"; AStr "Qty."];
     Printf "---------------\n" []].
Proof.
  split; [| repeat split; reflexivity].
  eexists. split; [vm_compute; reflexivity |].
  apply list_elem_of_In. vm_compute. tauto.
Qed.

Example scenario_duplicate_model_code :
  fst <$> run (Char "a" :: typed dup_first ++ Char "a" :: typed dup_second
               ++ [Char "s"; Char "n"; Line "DUP"])%list =
    Some (mkState (mkInventory [dup_first; dup_second]) (FoundItemMenu 0%nat)) /\
  fst <$> run (Char "a" :: typed dup_first ++ Char "a" :: typed dup_second
               ++ [Char "s"; Char "n"; Line "DUP"; Char "r";
                   Char "s"; Char "n"; Line "DUP"])%list =
    Some (mkState (mkInventory [dup_second]) (FoundItemMenu 0%nat)).
Proof. split; reflexivity. Qed.

End Shell.

(** ** More on the catalog *)

Section Catalog.

Implicit Types (prod : Product).

Lemma valid_name_in_table prod :
  is_valid_product prod = true ->
  get_product_name prod ∈
    ["Dresses"; "Crop Tops"; "Sweatshirts & Hoodies"; "Blouses"; "Skirts";
     "Shorts"; "Jeans"; "MatchingSets"; "Swimwear"; "Accessories"].
Proof.
  intros Hvalid. apply is_valid_product_declared in Hvalid.
  repeat (apply elem_of_cons in Hvalid as [-> | Hvalid];
          [apply list_elem_of_In; vm_compute; tauto |]).
  by apply elem_of_nil in Hvalid.
Qed.

(** X1: the empty string is the name of the invalid identifiers only: no
    category of the table has an empty name. *)
Theorem get_product_name_empty_iff prod :
  get_product_name prod = EmptyString <-> is_valid_product prod = false.
Proof.
  split.
  - intros Hempty. destruct (is_valid_product prod) eqn:Hvalid; [| done].
    apply valid_name_in_table in Hvalid. rewrite Hempty in Hvalid.
    repeat (apply elem_of_cons in Hvalid as [Heq | Hvalid]; [discriminate Heq |]).
    by apply elem_of_nil in Hvalid.
  - intros Hinvalid. unfold get_product_name. by rewrite Hinvalid.
Qed.

(** X2: two valid categories with the same name are the same category. *)
Theorem get_product_name_inj (p q : Product) :
  is_valid_product p = true -> is_valid_product q = true ->
  get_product_name p = get_product_name q -> p = q.
Proof.
  intros Hp Hq. apply is_valid_product_declared in Hp, Hq.
  repeat (apply elem_of_cons in Hp as [-> | Hp]);
    try (by apply elem_of_nil in Hp);
    repeat (apply elem_of_cons in Hq as [-> | Hq]);
    try (by apply elem_of_nil in Hq);
    vm_compute; intros Heq; first [reflexivity | discriminate Heq].
Qed.

Lemma get_product_name_inj_witness :
  get_product_name Product.Jeans = get_product_name 6 /\ Product.Jeans = 6.
Proof.
  split; [reflexivity |].
  apply (get_product_name_inj Product.Jeans 6); reflexivity.
Defined.

Lemma list_products_lines :
  list_products =
    (Printf "Product list: \n" []
     :: map (fun prod => Printf "(%d) %s\n" [AInt prod; AStr (get_product_name prod)])
            Product.declared
     ++ [Printf "---------------\n" []])%list.
Proof. reflexivity. Qed.

(** X3: [list_products] prints, between its first and last line, one line
    for each valid category and no other: the line of index [i] is there
    exactly when [i] is valid, and the name on it is the one
    [get_product_name] gives.  The indices listed are the ones the category
    read of [handle_add_option] accepts. *)
Theorem list_products_offers_valid (i : Z) :
  (forall text : string,
     Printf "(%d) %s\n" [AInt i; AStr text] ∈ list_products <->
     is_valid_product i = true /\ text = get_product_name i) /\
  (forall (ret : InventoryUI.Caller) (inv : Inventory),
     Printf "(%d) %s\n" [AInt i; AStr (get_product_name i)] ∈ list_products <->
     fst <$> InventoryUI.handle_add_option ret InventoryUI.ReadCategory inv (Int i) =
       Some (InventoryUI.mkState inv (InventoryUI.AddFlow ret (InventoryUI.ReadModel i)))) /\
  length list_products = S (S (index_of Product.Count)).
Proof.
  assert (Hline : forall text : string,
            Printf "(%d) %s\n" [AInt i; AStr text] ∈ list_products <->
            is_valid_product i = true /\ text = get_product_name i).
  { intros text. rewrite list_products_lines, is_valid_product_declared.
    rewrite elem_of_cons, elem_of_app, list_elem_of_fmap, list_elem_of_singleton.
    split.
    - intros [Hhead | [(prod & Heq & Hin) | Hlast]]; [done | | done].
      injection Heq as -> ->. done.
    - intros [Hin ->]. right. left. by exists i. }
  split; [exact Hline |]. split; [| reflexivity].
  intros ret inv. rewrite Hline. unfold InventoryUI.handle_add_option.
  destruct (is_valid_product i); simpl; split; try done.
  intros [Hfalse _]. done.
Qed.

End Catalog.

(** ** More on the store *)

Section StoreComposition.

Implicit Types (v w : list Item) (pred : Inventory.SearchPredicate).
Implicit Types (inv : Inventory) (item : Item) (pitem : ItemPtr).

Lemma find_if_app v w pred :
  Inventory.find_if (v ++ w) pred =
    if (Inventory.find_if v pred =? length v)%nat
    then (length v + Inventory.find_if w pred)%nat
    else Inventory.find_if v pred.
Proof.
  induction v as [| x rest IH]; simpl; [done |].
  destruct (pred x); [done |]. rewrite IH.
  change (S ?a =? S ?b)%nat with (a =? b)%nat.
  by destruct (_ =? _)%nat.
Qed.

(** X4: [search] after [add] returns what it returned before when that was
    an item; when it found none, it returns the position of the added item
    if the predicate holds for it, and nothing otherwise. *)
Theorem search_add inv item pred :
  Inventory.search (Inventory.add inv item) pred =
    match Inventory.search inv pred with
    | Some pitem => Some pitem
    | None => if pred item then Some (length (items inv)) else None
    end.
Proof.
  unfold Inventory.search, Inventory.add. simpl.
  rewrite find_if_app, length_app. simpl.
  pose proof (find_if_le (items inv) pred) as Hle.
  destruct (Nat.eqb_spec (Inventory.find_if (items inv) pred) (length (items inv)))
    as [Hend | Hin]; simpl.
  - destruct (pred item); simpl.
    + rewrite Nat.add_0_r.
      destruct (Nat.eqb_spec (length (items inv)) (length (items inv) + 1)); [lia | done].
    + by rewrite Nat.eqb_refl.
  - destruct (Nat.eqb_spec (Inventory.find_if (items inv) pred) (length (items inv) + 1));
      [lia | done].
Qed.

(** X5: an item added and found again by a predicate that no item held
    before satisfies is at the end, and removing it there gives back the
    inventory as it was. *)
Theorem add_search_remove inv item pred :
  Inventory.search inv pred = None -> pred item = true ->
  Inventory.search (Inventory.add inv item) pred = Some (length (items inv)) /\
  Inventory.remove (Inventory.add inv item) (length (items inv)) = Some inv.
Proof.
  intros Hnone Hitem. split.
  - apply search_Some. simpl. split.
    + exists item. split; [| done].
      rewrite lookup_app_r by done. by rewrite Nat.sub_diag.
    + intros j y Hj. rewrite lookup_app_l by done. intros Hy.
      apply (proj1 (search_None inv pred) Hnone).
      apply list_elem_of_lookup. by exists j.
  - rewrite remove_Some by (simpl; rewrite length_app; simpl; lia).
    destruct inv as [v]. simpl. f_equal. f_equal.
    rewrite delete_take_drop, take_app_length.
    rewrite drop_ge by (rewrite length_app; simpl; lia).
    apply app_nil_r.
Qed.

Lemma add_search_remove_witness :
  Inventory.search (Inventory.add stock sh7) (InventoryUI.by_name "SH-7") = Some 3%nat /\
  Inventory.remove (Inventory.add stock sh7) 3%nat = Some stock.
Proof.
  apply (add_search_remove stock sh7 (InventoryUI.by_name "SH-7")); reflexivity.
Defined.

(** X6: removing the item [search] found takes the first of the items that
    satisfy the predicate out of them and keeps the later ones in their
    order; the items that do not satisfy it are all kept, in their order. *)
Theorem remove_found_filter inv pred pitem inv' :
  Inventory.search inv pred = Some pitem ->
  Inventory.remove inv pitem = Some inv' ->
  exists item : Item,
    items inv !! pitem = Some item /\
    filter (fun x => pred x = true) (items inv) =
      item :: filter (fun x => pred x = true) (items inv') /\
    filter (fun x => pred x <> true) (items inv') =
      filter (fun x => pred x <> true) (items inv).
Proof.
  intros Hsearch Hremove.
  apply search_Some in Hsearch as [(item & Hitem & Hp) Hbefore].
  assert (Hlt : (pitem < length (items inv))%nat) by by apply lookup_lt_Some in Hitem.
  rewrite remove_Some in Hremove by done. injection Hremove as <-. simpl.
  exists item. split; [done |].
  assert (Hnone : Forall (fun x => pred x <> true) (take pitem (items inv))).
  { apply Forall_lookup. intros j y Hy.
    apply lookup_take_Some in Hy as [Hy Hj].
    rewrite (Hbefore j y Hj Hy). done. }
  pose proof (take_drop_middle (items inv) pitem item Hitem) as Hsplit.
  rewrite delete_take_drop.
  remember (take pitem (items inv)) as before eqn:Ebefore.
  remember (drop (S pitem) (items inv)) as behind eqn:Ebehind.
  clear Ebefore Ebehind. rewrite <- Hsplit.
  rewrite !filter_app, !filter_cons.
  destruct (decide (pred item = true)) as [_ | Hno]; [| done].
  destruct (decide (pred item <> true)) as [Hno | _]; [done |].
  split; [| done].
  assert (Hempty : filter (fun x => pred x = true) before = []).
  { clear Hsplit. induction Hnone as [| y rest Hy _ IH]; [done |].
    rewrite filter_cons. by destruct (decide (pred y = true)). }
  by rewrite Hempty.
Qed.

Lemma remove_found_filter_witness :
  Inventory.search stock (InventoryUI.by_name "DUP") = Some 1%nat /\
  Inventory.remove stock 1%nat = Some (mkInventory [sk100; dup_second]) /\
  exists item : Item,
    items stock !! 1%nat = Some item /\
    filter (fun x => InventoryUI.by_name "DUP" x = true) (items stock) =
      item :: filter (fun x => InventoryUI.by_name "DUP" x = true) [sk100; dup_second] /\
    filter (fun x => InventoryUI.by_name "DUP" x <> true) [sk100; dup_second] =
      filter (fun x => InventoryUI.by_name "DUP" x <> true) (items stock).
Proof.
  split; [reflexivity |]. split; [reflexivity |].
  apply (remove_found_filter stock (InventoryUI.by_name "DUP") 1%nat
           (mkInventory [sk100; dup_second])); reflexivity.
Defined.

End StoreComposition.

(** ** More on the shell *)

Section ShellFlows.

Import InventoryUI.

Implicit Types (s : State) (inv : Inventory) (input : Input) (out : list Output).
Implicit Types (item : Item) (pitem : ItemPtr).

Lemma by_name_true (code : string) item : by_name code item = true <-> name item = code.
Proof. apply String.eqb_eq. Qed.

Lemma by_name_false (code : string) item : by_name code item = false <-> name item <> code.
Proof. apply String.eqb_neq. Qed.

Lemma by_product_true (prod : Product) item : by_product prod item = true <-> id item = prod.
Proof. apply Z.eqb_eq. Qed.

Lemma by_product_false (prod : Product) item : by_product prod item = false <-> id item <> prod.
Proof. apply Z.eqb_neq. Qed.

Lemma found_FoundItemMenu inv (result : option ItemPtr) pitem :
  fst <$> found inv result = Some (mkState inv (FoundItemMenu pitem)) <->
  result = Some pitem.
Proof.
  destruct result as [p |]; simpl; split; intros [= ->] || intros [=]; done.
Qed.

Lemma found_MainMenu inv (result : option ItemPtr) :
  found inv result =
    Some (mkState inv MainMenu,
          Printf "Item not found. Try adding an item.\n" [] :: to_main_menu) <->
  result = None.
Proof. destruct result as [p |]; simpl; split; intros [=] || intros _; done. Qed.

(** X7: the search of [handle_search_option], by model code and by category,
    enters the found-item menu at the first item, in sequence order, whose
    model code (category) equals the one typed; when no item has it, it prints
    the not-found line and returns to the main menu.  The inventory is the
    same in both cases. *)
Theorem search_flow_first_match inv :
  (forall (code : string) pitem,
     fst <$> step (mkState inv (SearchFlow ReadName)) (Line code) =
       Some (mkState inv (FoundItemMenu pitem)) <->
     (exists item, items inv !! pitem = Some item /\ name item = code) /\
     (forall j y, (j < pitem)%nat -> items inv !! j = Some y -> name y <> code)) /\
  (forall code : string,
     step (mkState inv (SearchFlow ReadName)) (Line code) =
       Some (mkState inv MainMenu,
             Printf "Item not found. Try adding an item.\n" [] :: to_main_menu) <->
     forall item, item ∈ items inv -> name item <> code) /\
  (forall (prod : Product) pitem,
     fst <$> step (mkState inv (SearchFlow ReadProduct)) (Int prod) =
       Some (mkState inv (FoundItemMenu pitem)) <->
     (exists item, items inv !! pitem = Some item /\ id item = prod) /\
     (forall j y, (j < pitem)%nat -> items inv !! j = Some y -> id y <> prod)) /\
  (forall prod : Product,
     step (mkState inv (SearchFlow ReadProduct)) (Int prod) =
       Some (mkState inv MainMenu,
             Printf "Item not found. Try adding an item.\n" [] :: to_main_menu) <->
     forall item, item ∈ items inv -> id item <> prod).
Proof.
  unfold step, handle_search_option. simpl.
  split; [| split; [| split]].
  - intros code pitem. rewrite found_FoundItemMenu, search_Some.
    setoid_rewrite by_name_true. setoid_rewrite by_name_false. done.
  - intros code. rewrite found_MainMenu, search_None.
    setoid_rewrite by_name_false. done.
  - intros prod pitem. rewrite found_FoundItemMenu, search_Some.
    setoid_rewrite by_product_true. setoid_rewrite by_product_false. done.
  - intros prod. rewrite found_MainMenu, search_None.
    setoid_rewrite by_product_false. done.
Qed.



(** X9: in every state a run reaches, the program has a transition for every
    value of the kind it reads there, and for no other: the item found, which
    the found-item menu and a pending edit hold, is inside the vector, so
    [erase] is not called on a position it is undefined for. *)
Theorem run_never_stuck (inputs : list Input) s out :
  run inputs = Some (s, out) ->
  (forall input, is_Some (step s input) <-> reads (control s) input = true) /\
  (forall pitem,
     control s = FoundItemMenu pitem \/
     (exists at_, control s = AddFlow (EditCommand pitem) at_) ->
     (pitem < length (items (inventory s)))%nat /\
     is_Some (Inventory.remove (inventory s) pitem)).
Proof.
  intros Hrun. apply run_invariant in Hrun as Hinv. split.
  - intros input. split; [apply step_reads | by apply step_progress].
  - destruct Hinv as (_ & _ & Hhandle).
    intros pitem Hat.
    assert (Hlt : (pitem < length (items (inventory s)))%nat).
    { destruct Hat as [Hat | [at_ Hat]]; rewrite Hat in Hhandle; exact Hhandle. }
    split; [exact Hlt |]. rewrite remove_Some by done. eauto.
Qed.

Lemma run_never_stuck_witness :
  exists s out,
    run [Char "a"; Int 4; Line "SK-100"; Float 0x41C7EB85; Int 12;
         Char "s"; Char "p"; Int 4; Char "e"; Int 77] = Some (s, out) /\
    control s = AddFlow (EditCommand 0%nat) ReadCategory /\
    (0 < length (items (inventory s)))%nat /\
    is_Some (step s (Int 5)).
Proof.
  eexists _, _. split; [vm_compute; reflexivity |].
  split; [reflexivity |].
  destruct (run_never_stuck
              [Char "a"; Int 4; Line "SK-100"; Float 0x41C7EB85; Int 12;
               Char "s"; Char "p"; Int 4; Char "e"; Int 77] _ _ eq_refl)
    as [Hstep Hhandle].
  split.
  - apply (Hhandle 0%nat). right. by exists ReadCategory.
  - apply Hstep. reflexivity.
Defined.

(** X10: [handle_add_option] cannot be left without an item and does not
    touch the inventory: from any of its reads the program goes on inside it,
    for the same caller and with the inventory unchanged, until the quantity
    is read, and only that read leads back to the main menu.  It never leads
    to the exit. *)
Theorem add_flow_returns_with_item s input s' out (ret : Caller) (at_ : AddPoint) :
  step s input = Some (s', out) ->
  control s = AddFlow ret at_ ->
  (inventory s' = inventory s /\
   (exists at', control s' = AddFlow ret at') /\
   forall id0 name0 price0, at_ <> ReadQuantity id0 name0 price0) \/
  (control s' = MainMenu /\
   exists id0 name0 price0 nstock0,
     at_ = ReadQuantity id0 name0 price0 /\ input = Int nstock0 /\
     return_item ret (inventory s) (mkItem id0 name0 price0 nstock0) = Some (s', out)).
Proof.
  destruct s as [inv c]. unfold step. simpl. intros Hstep ->. revert Hstep.
  unfold handle_add_option.
  destruct at_ as [| id0 | id0 name0 | id0 name0 price0], input as [| n | |];
    try done.
  - case_match; intros [= <- <-]; left; eauto.
  - intros [= <- <-]; left; eauto.
  - intros [= <- <-]; left; eauto.
  - intros Hreturn. right. split.
    + unfold return_item, edit in Hreturn.
      destruct ret; simplify_option_eq; done.
    + by exists id0, name0, price0, n.
Qed.

Lemma add_flow_returns_with_item_witness :
  step (mkState stock (AddFlow (EditCommand 0%nat) ReadCategory)) (Int 10) =
    Some (mkState stock (AddFlow (EditCommand 0%nat) ReadCategory),
          invalid_option :: to_add_flow) /\
  exists at', AddFlow (EditCommand 0%nat) ReadCategory = AddFlow (EditCommand 0%nat) at'.
Proof.
  split; [reflexivity |].
  destruct (add_flow_returns_with_item
              (mkState stock (AddFlow (EditCommand 0%nat) ReadCategory)) (Int 10)
              (mkState stock (AddFlow (EditCommand 0%nat) ReadCategory))
              (invalid_option :: to_add_flow) (EditCommand 0%nat) ReadCategory
              eq_refl eq_refl)
    as [(_ & Hat & _) | (Hmain & _)]; [exact Hat | discriminate Hmain].
Defined.




Lemma exec_refused (ret : Caller) inv (refused : list Z) (rest : list Input) :
  Forall (fun n => is_valid_product n = false) refused ->
  exec (mkState inv (AddFlow ret ReadCategory)) (map Int refused ++ rest) =
    '(s', out) ← exec (mkState inv (AddFlow ret ReadCategory)) rest;
    Some (s', (refusals refused ++ out)%list).
Proof.
  induction 1 as [| n refused Hn _ IH]; simpl.
  - by destruct (exec _ rest) as [[s' out] |].
  - unfold step at 1. simpl. rewrite Hn. simpl. rewrite IH.
    destruct (exec _ rest) as [[s' out] |]; simpl; [| done].
    reflexivity.
Qed.

Lemma exec_typed (ret : Caller) inv item :
  is_valid_product (id item) = true ->
  exec (mkState inv (AddFlow ret ReadCategory)) (typed item) =
    '(s', out) ← return_item ret inv item;
    Some (s', ([ Printf "Enter model code: " []; Printf "Enter price: " [];
                 Printf "Enter quantity: " [] ] ++ out)%list).
Proof.
  intros Hvalid. destruct item as [id0 name0 price0 nstock0].
  unfold typed, exec, step, handle_add_option. simpl in *. rewrite Hvalid. simpl.
  destruct (return_item _ _ _) as [[s' out] |]; simpl; [| done].
  by rewrite app_nil_r.
Qed.

(** X12: [handle_add_option] returns the item typed after any number of
    refused categories, each answered by the error line and the product list
    again.  For the [a] command the item is appended and the confirmation
    printed; for the edit of a found item, that item is erased and the new
    one appended. *)
Theorem add_flow_after_refusals inv (refused : list Z) item :
  Forall (fun n => is_valid_product n = false) refused ->
  is_valid_product (id item) = true ->
  exec (mkState inv MainMenu) (Char "a" :: map Int refused ++ typed item) =
    Some (mkState (Inventory.add inv item) MainMenu,
          ((list_products ++ [ Printf "Select product category to add: " [] ])
           ++ (refused ≫= fun _ =>
                 Printf "Invalid option selected. Please try again.\n" []
                 :: (list_products ++ [ Printf "Select product category to add: " [] ]))
           ++ [ Printf "Enter model code: " []; Printf "Enter price: " [];
                Printf "Enter quantity: " []; Printf "Added item\n\n" [] ]
           ++ to_main_menu)%list) /\
  forall pitem,
    (pitem < length (items inv))%nat ->
    exec (mkState inv (FoundItemMenu pitem)) (Char "e" :: map Int refused ++ typed item) =
      Some (mkState (mkInventory (delete pitem (items inv) ++ [item])) MainMenu,
            ((list_products ++ [ Printf "Select product category to add: " [] ])
             ++ (refused ≫= fun _ =>
                   Printf "Invalid option selected. Please try again.\n" []
                   :: (list_products ++ [ Printf "Select product category to add: " [] ]))
             ++ [ Printf "Enter model code: " []; Printf "Enter price: " [];
                  Printf "Enter quantity: " [] ]
             ++ to_main_menu)%list).
Proof.
  intros Hrefused Hvalid. split.
  - change (exec (mkState inv MainMenu) (Char "a" :: map Int refused ++ typed item))
      with ('(s', out) ← exec (mkState inv (AddFlow AddCommand ReadCategory))
                            (map Int refused ++ typed item);
            Some (s', (to_add_flow ++ out)%list)).
    rewrite exec_refused, exec_typed by done. reflexivity.
  - intros pitem Hlt.
    change (exec (mkState inv (FoundItemMenu pitem))
              (Char "e" :: map Int refused ++ typed item))
      with ('(s', out) ← exec (mkState inv (AddFlow (EditCommand pitem) ReadCategory))
                            (map Int refused ++ typed item);
            Some (s', (to_add_flow ++ out)%list)).
    rewrite exec_refused, exec_typed by done.
    unfold return_item, edit. rewrite remove_Some by done. reflexivity.
Qed.

Lemma add_flow_after_refusals_witness :
  fst <$> exec (mkState stock MainMenu) (Char "a" :: map Int [12; -1; 10] ++ typed sh7) =
    Some (mkState (mkInventory [sk100; dup_first; dup_second; sh7]) MainMenu) /\
  fst <$> exec (mkState stock (FoundItemMenu 0%nat))
            (Char "e" :: map Int [12; -1; 10] ++ typed sh7) =
    Some (mkState (mkInventory [dup_first; dup_second; sh7]) MainMenu).
Proof.
  destruct (add_flow_after_refusals stock [12; -1; 10] sh7) as [Hadd Hedit].
  - repeat constructor.
  - reflexivity.
  - split.
    + rewrite Hadd. reflexivity.
    + rewrite (Hedit 0%nat) by (simpl; lia). reflexivity.
Defined.

Lemma main_menu_unrecognised inv (opt : ascii) :
  opt ∉ offered list_options ->
  step (mkState inv MainMenu) (Char opt) =
    Some (mkState inv MainMenu, invalid_option :: to_main_menu).
Proof.
  change (offered list_options) with ["a"; "s"; "p"; "l"; "q"]%char.
  rewrite !not_elem_of_cons. intros (Ha & Hs & Hp & Hl & Hq & _).
  unfold step, main_menu. cbn [control inventory].
  destruct option_characters as (-> & _ & _ & -> & -> & -> & ->).
  apply Ascii.eqb_neq in Ha, Hs, Hp, Hl, Hq.
  by rewrite Ha, Hs, Hp, Hl, Hq.
Qed.

Lemma found_item_menu_unrecognised inv pitem (opt : ascii) :
  opt ∉ offered to_found_item_menu ->
  step (mkState inv (FoundItemMenu pitem)) (Char opt) =
    Some (mkState inv (FoundItemMenu pitem), invalid_option :: to_found_item_menu).
Proof.
  change (offered to_found_item_menu) with ["r"; "e"; "q"]%char.
  rewrite !not_elem_of_cons. intros (Hr & He & Hq & _).
  unfold step, found_item_menu. cbn [control inventory].
  destruct option_characters as (_ & -> & -> & _ & _ & _ & ->).
  apply Ascii.eqb_neq in Hr, He, Hq.
  by rewrite Hr, He, Hq.
Qed.

(** X13: searching by model code (by category) and answering [r] removes the
    first item with that model code (category) when there is one, and leaves
    the inventory as it is when there is none, where the [r] is then a
    main-menu command that is refused; either way the program is back at the
    main menu. *)
Theorem search_then_remove inv :
  (forall code : string,
     fst <$> exec (mkState inv MainMenu) [Char "s"; Char "n"; Line code; Char "r"] =
       Some (mkState
               match Inventory.search inv (by_name code) with
               | Some pitem => mkInventory (delete pitem (items inv))
               | None => inv
               end MainMenu)) /\
  (forall prod : Product,
     fst <$> exec (mkState inv MainMenu) [Char "s"; Char "p"; Int prod; Char "r"] =
       Some (mkState
               match Inventory.search inv (by_product prod) with
               | Some pitem => mkInventory (delete pitem (items inv))
               | None => inv
               end MainMenu)).
Proof.
  split.
  - intros code.
    destruct (Inventory.search inv (by_name code)) as [pitem |] eqn:Hsearch;
      unfold exec, step, handle_search_option; simpl; rewrite Hsearch; simpl;
      [| reflexivity].
    apply search_in_range in Hsearch. unfold step. simpl.
    by rewrite remove_Some.
  - intros prod.
    destruct (Inventory.search inv (by_product prod)) as [pitem |] eqn:Hsearch;
      unfold exec, step, handle_search_option; simpl; rewrite Hsearch; simpl;
      [| reflexivity].
    apply search_in_range in Hsearch. unfold step. simpl.
    by rewrite remove_Some.
Qed.

(** X14: in every state a run reaches, a search by a category that is not
    valid finds nothing: no stored item has such a category, so the program
    prints the not-found line and returns to the main menu. *)
Theorem search_invalid_category_not_found (inputs : list Input) s out (prod : Product) :
  run inputs = Some (s, out) ->
  is_valid_product prod = false ->
  Inventory.search (inventory s) (by_product prod) = None /\
  step (mkState (inventory s) (SearchFlow ReadProduct)) (Int prod) =
    Some (mkState (inventory s) MainMenu,
          Printf "Item not found. Try adding an item.\n" [] :: to_main_menu).
Proof.
  intros Hrun Hinvalid. apply run_invariant in Hrun as (Hall & _ & _).
  assert (Hnone : Inventory.search (inventory s) (by_product prod) = None).
  { apply search_None. intros item Hin. apply by_product_false. intros <-.
    unfold all_valid in Hall. rewrite Forall_forall in Hall.
    specialize (Hall item Hin). congruence. }
  split; [exact Hnone |].
  unfold step, handle_search_option. cbn [control inventory].
  by rewrite Hnone.
Qed.

Lemma search_invalid_category_not_found_witness :
  exists s out,
    run session = Some (s, out) /\
    Inventory.search (inventory s) (by_product Product.Count) = None.
Proof.
  eexists _, _. split; [vm_compute; reflexivity |].
  refine (proj1 (search_invalid_category_not_found session _ _ Product.Count _ _)).
  - vm_compute. reflexivity.
  - reflexivity.
Defined.

(** X15: both menus ask again for as long as the characters typed are none
    of the commands they show: the program stays at the menu, the inventory
    is untouched, and each character is answered by the error line and the
    menu. *)
Theorem menus_repeat_on_unrecognised inv pitem (typed_main typed_found : list ascii) :
  Forall (fun opt => opt ∉ offered list_options) typed_main ->
  Forall (fun opt => opt ∉ offered to_found_item_menu) typed_found ->
  exec (mkState inv MainMenu) (map Char typed_main) =
    Some (mkState inv MainMenu,
          typed_main ≫= fun _ =>
            Printf "Invalid option selected. Please try again.\n" [] :: to_main_menu) /\
  exec (mkState inv (FoundItemMenu pitem)) (map Char typed_found) =
    Some (mkState inv (FoundItemMenu pitem),
          typed_found ≫= fun _ =>
            Printf "Invalid option selected. Please try again.\n" [] :: to_found_item_menu).
Proof.
  intros Hmain Hfound. split.
  - induction Hmain as [| opt rest Hopt _ IH]; [done |].
    cbn [map exec]. rewrite main_menu_unrecognised by done.
    cbn [mbind option_bind]. rewrite IH. reflexivity.
  - induction Hfound as [| opt rest Hopt _ IH]; [done |].
    cbn [map exec]. rewrite found_item_menu_unrecognised by done.
    cbn [mbind option_bind]. rewrite IH. reflexivity.
Qed.

Lemma menus_repeat_on_unrecognised_witness :
  fst <$> exec (mkState stock MainMenu) (map Char ["x"; "r"; "e"; "A"]%char) =
    Some (mkState stock MainMenu) /\
  fst <$> exec (mkState stock (FoundItemMenu 2%nat)) (map Char ["a"; "s"; "l"; "p"]%char) =
    Some (mkState stock (FoundItemMenu 2%nat)).
Proof.
  destruct (menus_repeat_on_unrecognised stock 2%nat
              ["x"; "r"; "e"; "A"]%char ["a"; "s"; "l"; "p"]%char)
    as [Hmain Hfound].
  - apply Forall_forall. intros opt Hopt Hoffered.
    apply list_elem_of_In in Hopt, Hoffered. vm_compute in Hopt, Hoffered.
    intuition congruence.
  - apply Forall_forall. intros opt Hopt Hoffered.
    apply list_elem_of_In in Hopt, Hoffered. vm_compute in Hopt, Hoffered.
    intuition congruence.
  - rewrite Hmain, Hfound. split; reflexivity.
Defined.

(** X16: each menu shows exactly the commands its dispatch accepts: a
    character is one of those printed by [list_options] (by the found-item
    menu) exactly when the main menu (the found-item menu) does not answer it
    with the error line, and no menu shows a character twice. *)
Theorem menus_offer_the_commands inv pitem (opt : ascii) :
  (opt ∈ offered list_options <->
   step (mkState inv MainMenu) (Char opt) <>
     Some (mkState inv MainMenu, invalid_option :: to_main_menu)) /\
  (opt ∈ offered to_found_item_menu <->
   step (mkState inv (FoundItemMenu pitem)) (Char opt) <>
     Some (mkState inv (FoundItemMenu pitem), invalid_option :: to_found_item_menu)) /\
  NoDup (offered list_options) /\
  NoDup (offered to_found_item_menu).
Proof.
  split; [| split; [| split; apply (bool_decide_unpack _); reflexivity]].
  - split.
    + change (offered list_options) with ["a"; "s"; "p"; "l"; "q"]%char.
      intros Hin.
      repeat (apply elem_of_cons in Hin as [-> | Hin]);
        [| | | | | by apply elem_of_nil in Hin];
        unfold step, main_menu, Inventory.list; simpl; discriminate.
    + intros Hstep. destruct (decide (opt ∈ offered list_options)) as [| Hnot]; [done |].
      by apply (main_menu_unrecognised inv) in Hnot.
  - split.
    + change (offered to_found_item_menu) with ["r"; "e"; "q"]%char.
      intros Hin.
      repeat (apply elem_of_cons in Hin as [-> | Hin]);
        [| | | by apply elem_of_nil in Hin];
        unfold step, found_item_menu; simpl; try discriminate.
      destruct (Inventory.remove inv pitem); simpl; discriminate.
    + intros Hstep.
      destruct (decide (opt ∈ offered to_found_item_menu)) as [| Hnot]; [done |].
      by apply (found_item_menu_unrecognised inv pitem) in Hnot.
Qed.

(** X17: in every state a run reaches, the row that [list] prints for a
    stored item carries a category name of the table, never the empty
    string that stands for an invalid category. *)
Theorem listed_rows_name_a_category (inputs : list Input) s out :
  run inputs = Some (s, out) ->
  forall line : Output,
    line ∈ map Inventory.row (items (inventory s)) ->
    exists item : Item,
      item ∈ items (inventory s) /\
      line = Printf "%32s%64s%16.2f%8d\n"
               [AStr (get_product_name (id item)); AStr (name item);
                AFloat (price item); AInt (nstock item)] /\
      get_product_name (id item) ∈ PRODUCT_NAMES /\
      get_product_name (id item) <> EmptyString.
Proof.
  intros Hrun line Hline. apply run_invariant in Hrun as (Hall & _ & _).
  apply list_elem_of_fmap in Hline as (item & -> & Hin).
  unfold all_valid in Hall. rewrite Forall_forall in Hall.
  specialize (Hall item Hin). simpl in Hall.
  apply valid_name_in_table in Hall.
  exists item. split; [done |]. split; [done |].
  rewrite PRODUCT_NAMES_table. split; [done |].
  intros Hempty. rewrite Hempty in Hall.
  repeat (apply elem_of_cons in Hall as [Heq | Hall]; [discriminate Heq |]).
  by apply elem_of_nil in Hall.
Qed.

Lemma listed_rows_name_a_category_witness :
  exists s out,
    run session = Some (s, out) /\
    Inventory.row sh7 ∈ map Inventory.row (items (inventory s)) /\
    exists item : Item,
      Inventory.row sh7 =
        Printf "%32s%64s%16.2f%8d\n"
          [AStr (get_product_name (id item)); AStr (name item);
           AFloat (price item); AInt (nstock item)] /\
      get_product_name (id item) <> EmptyString.
Proof.
  eexists _, _. split; [vm_compute; reflexivity |].
  assert (Hline : Inventory.row sh7 ∈ map Inventory.row [dup_first; sh7]).
  { simpl. repeat constructor. }
  split; [exact Hline |].
  destruct (listed_rows_name_a_category session _ _ eq_refl (Inventory.row sh7) Hline)
    as (item & _ & Hrow & _ & Hname).
  by exists item.
Defined.

Lemma exec_add_commands inv (added : list Item) :
  Forall (fun item => is_valid_product (id item) = true) added ->
  exists out,
    exec (mkState inv MainMenu) (add_commands added) =
      Some (mkState (mkInventory (items inv ++ added)) MainMenu, out).
Proof.
  intros Hvalid. revert inv.
  induction Hvalid as [| item added Hitem _ IH]; intros inv.
  - exists []. destruct inv as [v]. simpl. by rewrite app_nil_r.
  - change (add_commands (item :: added))
      with ((Char "a" :: typed item) ++ add_commands added)%list.
    rewrite exec_app.
    change (exec (mkState inv MainMenu) (Char "a" :: typed item))
      with ('(s', out) ← exec (mkState inv (AddFlow AddCommand ReadCategory)) (typed item);
            Some (s', (to_add_flow ++ out)%list)).
    rewrite exec_typed by done. cbn [return_item mbind option_bind].
    destruct (IH (Inventory.add inv item)) as [out Hout].
    rewrite Hout. cbn [mbind option_bind Inventory.add items].
    rewrite <- app_assoc. eauto.
Qed.

(** X18: [a] commands for a list of items with valid categories, typed one
    after the other, leave the program at the main menu with those items
    appended to the inventory in the order typed; on a new inventory, an [l]
    command then prints the header, one row for each of them in that order,
    the closing line and the main menu. *)
Theorem add_commands_then_list (added : list Item) :
  Forall (fun item => is_valid_product (id item) = true) added ->
  (forall inv,
     fst <$> exec (mkState inv MainMenu) (add_commands added) =
       Some (mkState (mkInventory (items inv ++ added)) MainMenu)) /\
  exists out,
    run (add_commands added ++ [Char "l"]) =
      Some (mkState (mkInventory added) MainMenu, out) /\
    (Printf "%32s%64s%16s%8s\n"
       [AStr "Product"; AStr "Model Code"; AStr "Price (GBP)"; AStr "Qty."]
     :: map (fun item =>
               Printf "%32s%64s%16.2f%8d\n"
                 [AStr (get_product_name (id item)); AStr (name item);
                  AFloat (price item); AInt (nstock item)])
            added
     ++ Printf "---------------\n" [] :: to_main_menu)%list `suffix_of` out.
Proof.
  intros Hvalid. split.
  - intros inv. destruct (exec_add_commands inv added Hvalid) as [out ->]. done.
  - destruct (exec_add_commands Inventory.new added Hvalid) as [out Hout].
    simpl in Hout. unfold run, start. rewrite exec_app, Hout.
    eexists. split; [reflexivity |].
    apply suffix_app_r, suffix_app_r.
    unfold Inventory.list. simpl. rewrite app_nil_r, <- app_assoc. done.
Qed.

Lemma add_commands_then_list_witness :
  fst <$> exec (mkState single MainMenu) (add_commands [dup_first; dup_second; sh7]) =
    Some (mkState (mkInventory [sk100; dup_first; dup_second; sh7]) MainMenu).
Proof.
  destruct (add_commands_then_list [dup_first; dup_second; sh7]) as [Hexec _].
  - repeat constructor.
  - exact (Hexec single).
Defined.

End ShellFlows.
